(** * Shallow embedding of [src/fermat_utils.py]

    Numbers of the Python code are modelled as follows:
    - Python [int] values (a, b, c, n, max_value) are [Z];
    - the values of [fermat_difference] and [fermat_relative_error] are [Q]
      (the exact value of the Python [int] or [float]; rounding of the float
      division is not modelled);
    - the two floating-point roots of the code are parameters:
      [froot a b n] is [int((a**n + b**n)**(1/n))] and [fsqrt s] is
      [int(np.sqrt(s))]; theorems state what they assume about them;
    - a raised Python exception ([ZeroDivisionError]) is [None]. *)

From Stdlib Require Import ZArith QArith Qabs Lia Lqa List.
From stdpp Require Import base gmap.
Import ListNotations.

Open Scope Z_scope.

(** Python's [x ** n] for [int] operands: an [int] for [n >= 0], a [float]
    for [n < 0], and [ZeroDivisionError] for [0 ** n] with [n < 0]. *)
Definition pow_py (x n : Z) : option Q :=
  if 0 <=? n then Some (inject_Z (x ^ n))
  else if x =? 0 then None
  else Some (/ inject_Z (x ^ (- n))).

(** Python's true division [x / y]: [ZeroDivisionError] when [y == 0]. *)
Definition div_py (x y : Q) : option Q :=
  if Qeq_bool y 0 then None else Some (x / y)%Q.

(** [fermat_difference(a, b, c, n) = abs(a**n + b**n - c**n)] *)
Definition fermat_difference (a b c n : Z) : option Q :=
  an ← pow_py a n; bn ← pow_py b n; cn ← pow_py c n;
  Some (Qabs (an + bn - cn)%Q).

(** [fermat_relative_error(a, b, c, n) = abs(a**n + b**n - c**n) / c**n] *)
Definition fermat_relative_error (a b c n : Z) : option Q :=
  d ← fermat_difference a b c n; cn ← pow_py c n; div_py d cn.

(** [range(lo, hi)] *)
Definition range_py (lo hi : Z) : list Z :=
  map (fun k => lo + Z.of_nat k) (seq 0 (Z.to_nat (hi - lo))).

(** A [for] loop whose body appends zero or more items to a list and may
    raise: the first raise aborts the whole loop. *)
Fixpoint for_append {A B} (body : A -> option (list B)) (xs : list A)
    : option (list B) :=
  match xs with
  | [] => Some []
  | x :: xs' =>
      ys ← body x; zs ← for_append body xs'; Some (ys ++ zs)
  end.

(** A row of the DataFrame built by [generate_test_cases]. *)
Record Row := mkRow {
  row_a : Z; row_b : Z; row_c : Z;
  row_error : Q; row_relative_error : Q; row_n : Z }.

(** A dictionary appended by [find_near_solutions]. *)
Record NearSolution := mkNear {
  near_a : Z; near_b : Z; near_c : Z;
  near_error : Q; near_relative_error : Q }.

Section Fermat.

(** [froot a b n] stands for [int((a**n + b**n)**(1/n))] (evaluated once
    [1/n] did not raise), [fsqrt s] for [int(np.sqrt(s))]. *)
Variable froot : Z -> Z -> Z -> Z.
Variable fsqrt : Z -> Z.

(** Choice between the two bracketing candidates, lines 70-88:
    [None] is the [continue] of line 88, otherwise [(c, error, rel_error)]. *)
Definition select_candidate (n a b : Z) : option (option (Z * Q * Q)) :=
  if n =? 0 then None (* 1/n *) else
  let c_low := froot a b n in
  let c_high := c_low + 1 in
  error_low ← fermat_difference a b c_low n;
  error_high ← fermat_difference a b c_high n;
  if Qle_bool error_low error_high && (0 <? c_low) then
    rel_error ← fermat_relative_error a b c_low n;
    Some (Some (c_low, error_low, rel_error))
  else if 0 <? c_high then
    rel_error ← fermat_relative_error a b c_high n;
    Some (Some (c_high, error_high, rel_error))
  else Some None.

(** Body of the [for a, b in product(...)] loop of [generate_test_cases],
    lines 67-101. *)
Definition grid_body (n : Z) (ab : Z * Z) : option (list Row) :=
  let (a, b) := ab in
  sel ← select_candidate n a b;
  match sel with
  | None => Some [] (* continue *)
  | Some (c, error, rel_error) =>
      if (2 <? n) && negb (Qle_bool rel_error (1 # 10)) (* rel_error > 0.1 *)
      then Some [] (* continue *)
      else Some [mkRow a b c error rel_error n]
  end.

(** The grid loop: [limit = min(max_value, 30)]. *)
Definition grid_rows (max_value n : Z) : option (list Row) :=
  let limit := Z.min max_value 30 in
  for_append (grid_body n)
    (list_prod (range_py 1 (limit + 1)) (range_py 1 (limit + 1))).

(** Inner body of the [n == 2] pass, lines 106-118. *)
Definition exact_body (max_value n a b : Z) : list Row :=
  let c_squared := a ^ 2 + b ^ 2 in
  let c := fsqrt c_squared in
  if (c ^ 2 =? c_squared) && (c <=? max_value) then
    [mkRow a b c 0%Q 0%Q n]
  else [].

(** The [n == 2] pass (it raises nothing). *)
Definition exact_rows (max_value n : Z) : list Row :=
  flat_map (fun a => flat_map (fun b => exact_body max_value n a b)
                              (range_py a (max_value + 1)))
           (range_py 1 (max_value + 1)).

(** [data] for one exponent [n]. *)
Definition rows_for (max_value n : Z) : option (list Row) :=
  data ← grid_rows max_value n;
  Some (data ++ (if n =? 2 then exact_rows max_value n else [])).

(** The [for n in n_values] loop filling the dictionary [results]. *)
Fixpoint gen_loop (max_value : Z) (n_values : list Z)
    (results : gmap Z (list Row)) : option (gmap Z (list Row)) :=
  match n_values with
  | [] => Some results
  | n :: ns =>
      data ← rows_for max_value n;
      gen_loop max_value ns (<[n := data]> results)
  end.

Definition generate_test_cases (max_value : Z) (n_values : list Z)
    : option (gmap Z (list Row)) :=
  gen_loop max_value n_values ∅.

(** Body of the [for c in c_candidates] loop of [find_near_solutions]. *)
Definition near_candidate (max_value n : Z) (error_threshold : Q) (a b c : Z)
    : option (list NearSolution) :=
  if (c <=? 0) || (max_value <? c) then Some [] (* continue *) else
  error ← fermat_difference a b c n;
  rel_error ← fermat_relative_error a b c n;
  if Qle_bool rel_error error_threshold then
    Some [mkNear a b c error rel_error]
  else Some [].

(** Body of the [for a ... for b ...] loops, lines 141-163. *)
Definition near_body (max_value n : Z) (error_threshold : Q) (ab : Z * Z)
    : option (list NearSolution) :=
  let (a, b) := ab in
  if n =? 0 then None (* 1/n *) else
  let c_approx := froot a b n in
  for_append (near_candidate max_value n error_threshold a b)
    [c_approx; c_approx + 1].

Definition find_near_solutions (max_value n : Z) (error_threshold : Q)
    : option (list NearSolution) :=
  for_append (near_body max_value n error_threshold)
    (list_prod (range_py 1 (max_value + 1)) (range_py 1 (max_value + 1))).

End Fermat.

(** A concrete instance of [froot] for the examples: the exact integer
    [n]-th root of [a^n + b^n] (for [n >= 1]). On the small inputs used
    below it agrees with [int((a**n + b**n)**(1/n))]. *)
Fixpoint root_search (fuel : nat) (n s k : Z) : Z :=
  match fuel with
  | O => k
  | S f => if (k + 1) ^ n <=? s then root_search f n s (k + 1) else k
  end.

Definition int_root (a b n : Z) : Z :=
  let s := a ^ n + b ^ n in root_search (Z.to_nat s) n s 0.

(** ** Consumers in [src/fermat_visualization.py] *)

(** [np.minimum(x, 0.5)] *)
Definition minimum_half (x : Q) : Q := if Qle_bool x (1 # 2) then x else 1 # 2.

(** [1 - np.minimum(relative_error, 0.5) / 0.5], the [error_for_color]
    column of [plot_3d_interactive_plotly] (line 101). *)
Definition error_for_color (rel_error : Q) : Q :=
  (1 - minimum_half rel_error / (1 # 2))%Q.


(** [len(df[df['error'] == 0])], the count printed by [main] (line 244). *)
Definition exact_count (rows : list Row) : nat :=
  length (List.filter (fun r => Qeq_bool (row_error r) 0) rows).


(** ** Loops and ranges *)

Section ForAppend.

Context {A B : Type}.
Implicit Types (body : A -> option (list B)) (xs : list A) (ys : list B).

Lemma for_append_in body xs ys y :
  for_append body xs = Some ys -> In y ys ->
  exists x zs, In x xs /\ body x = Some zs /\ In y zs.
Proof.
  revert ys; induction xs as [|x xs IH]; simpl; intros ys H Hy.
  - injection H as <-. contradiction.
  - destruct (body x) as [zs|] eqn:Hb; [|discriminate]; simpl in H.
    destruct (for_append body xs) as [ws|] eqn:Hw; [|discriminate].
    simpl in H. injection H as <-. apply in_app_or in Hy as [Hy|Hy].
    + exists x, zs. auto.
    + destruct (IH ws eq_refl Hy) as (x' & zs' & ? & ? & ?). exists x', zs'. auto.
Qed.

Lemma for_append_complete body xs ys x zs y :
  for_append body xs = Some ys -> In x xs -> body x = Some zs -> In y zs ->
  In y ys.
Proof.
  revert ys; induction xs as [|x' xs IH]; simpl; intros ys H Hx Hb Hy.
  - contradiction.
  - destruct (body x') as [zs'|] eqn:Hb'; [|discriminate]; simpl in H.
    destruct (for_append body xs) as [ws|] eqn:Hw; [|discriminate].
    simpl in H. injection H as <-. apply in_or_app.
    destruct Hx as [<-|Hx].
    + left. congruence.
    + right. eauto.
Qed.


(** Two loops whose bodies succeed together and produce related outputs. *)
Lemma for_append_incl (body1 body2 : A -> option (list B)) xs ys1 :
  for_append body1 xs = Some ys1 ->
  (forall x zs1, In x xs -> body1 x = Some zs1 ->
     exists zs2, body2 x = Some zs2 /\ forall y, In y zs1 -> In y zs2) ->
  exists ys2, for_append body2 xs = Some ys2 /\ forall y, In y ys1 -> In y ys2.
Proof.
  revert ys1; induction xs as [|x xs IH]; simpl; intros ys1 H Hall.
  - injection H as <-. exists []. split; [reflexivity|contradiction].
  - destruct (body1 x) as [zs1|] eqn:Hb; [|discriminate]; simpl in H.
    destruct (for_append body1 xs) as [ws1|] eqn:Hw; [|discriminate].
    simpl in H. injection H as <-.
    destruct (Hall x zs1 (or_introl eq_refl) Hb) as (zs2 & -> & Hz).
    destruct (IH ws1 eq_refl) as (ws2 & -> & Hws); [eauto|].
    simpl. eexists; split; [reflexivity|].
    intros y Hy. apply in_app_or in Hy as [Hy|Hy]; apply in_or_app; auto.
Qed.

(** Bodies emitting at most one item tagged with its input keep the
    inputs' absence of duplicates. *)
Lemma for_append_nodup (key : B -> A) body xs ys :
  for_append body xs = Some ys -> NoDup xs ->
  (forall x zs, body x = Some zs ->
     length zs <= 1 /\ forall y, In y zs -> key y = x)%nat ->
  NoDup (map key ys).
Proof.
  revert ys; induction xs as [|x xs IH]; simpl; intros ys H Hnd Hb.
  - injection H as <-. constructor.
  - destruct (body x) as [zs|] eqn:Hbx; [|discriminate]; simpl in H.
    destruct (for_append body xs) as [ws|] eqn:Hw; [|discriminate].
    simpl in H. injection H as <-. inversion Hnd as [|? ? Hx Hnd']; subst.
    destruct (Hb x zs Hbx) as [Hlen Hkey].
    destruct zs as [|z [|z' zs]]; simpl in *; [eauto| |lia].
    constructor; [|eauto].
    rewrite (Hkey z (or_introl eq_refl)). intros Hin.
    apply list_elem_of_In, in_map_iff in Hin as (w & Hkw & Hw').
    destruct (for_append_in _ _ _ _ Hw Hw') as (x' & zs' & Hx' & Hb' & Hz').
    destruct (Hb x' zs' Hb') as [_ Hk]. rewrite (Hk w Hz') in Hkw. subst.
    apply Hx, list_elem_of_In. assumption.
Qed.

End ForAppend.

Lemma in_range_py lo hi x : In x (range_py lo hi) <-> lo <= x < hi.
Proof.
  unfold range_py. rewrite in_map_iff. split.
  - intros (k & <- & Hk). apply in_seq in Hk. lia.
  - intros Hx. exists (Z.to_nat (x - lo)). split; [lia|]. apply in_seq. lia.
Qed.

Lemma range_py_nodup lo hi : NoDup (range_py lo hi).
Proof.
  unfold range_py. generalize 0%nat as s. induction (Z.to_nat (hi - lo)) as [|len IH];
    intros s; simpl; constructor; [|apply IH].
  rewrite list_elem_of_In, in_map_iff. intros (k & Hk & Hin).
  apply in_seq in Hin. lia.
Qed.

Lemma list_prod_nodup {A B} (l1 : list A) (l2 : list B) :
  NoDup l1 -> NoDup l2 -> NoDup (list_prod l1 l2).
Proof.
  intros H1 H2. induction H1 as [|x l1 Hx H1 IH]; simpl; [constructor|].
  apply NoDup_app. split; [|split; [|exact IH]].
  - apply NoDup_fmap_2; [|exact H2]. intros ? ? [=]. assumption.
  - intros p Hp Hp'. apply list_elem_of_In in Hp, Hp'.
    apply in_map_iff in Hp as (y & <- & _). apply in_prod_iff in Hp' as [? _].
    apply Hx, list_elem_of_In. assumption.
Qed.

(** ** Arithmetic of the error metrics *)

Lemma pow_py_nonneg x n : 0 <= n -> pow_py x n = Some (inject_Z (x ^ n)).
Proof. intros Hn. unfold pow_py. destruct (Z.leb_spec 0 n); [reflexivity|lia]. Qed.

Lemma fermat_difference_nonneg_exp a b c n :
  0 <= n ->
  fermat_difference a b c n =
    Some (Qabs (inject_Z (a ^ n) + inject_Z (b ^ n) - inject_Z (c ^ n))).
Proof.
  intros Hn. unfold fermat_difference. rewrite !pow_py_nonneg by exact Hn.
  reflexivity.
Qed.

Lemma fermat_relative_error_of_difference a b c n d :
  0 <= n -> 0 < c -> fermat_difference a b c n = Some d ->
  fermat_relative_error a b c n = Some (d / inject_Z (c ^ n))%Q.
Proof.
  intros Hn Hc Hd. unfold fermat_relative_error. rewrite Hd. simpl.
  rewrite pow_py_nonneg by exact Hn. simpl. unfold div_py.
  destruct (Qeq_bool (inject_Z (c ^ n)) 0) eqn:E; [|reflexivity].
  apply Qeq_bool_iff in E. unfold Qeq in E. simpl in E.
  pose proof (Z.pow_pos_nonneg c n Hc Hn). lia.
Qed.

Lemma fermat_relative_error_nonneg a b c n rel :
  0 <= n -> 0 < c -> fermat_relative_error a b c n = Some rel -> (0 <= rel)%Q.
Proof.
  intros Hn Hc H.
  rewrite (fermat_relative_error_of_difference a b c n _ Hn Hc
             (fermat_difference_nonneg_exp a b c n Hn)) in H.
  revert H.
  generalize (Qabs_nonneg (inject_Z (a ^ n) + inject_Z (b ^ n) - inject_Z (c ^ n))).
  generalize (Qabs (inject_Z (a ^ n) + inject_Z (b ^ n) - inject_Z (c ^ n))).
  intros d Hd H. injection H as <-.
  assert (Hpos : (0 < inject_Z (c ^ n))%Q).
  { pose proof (Z.pow_pos_nonneg c n Hc Hn). unfold Qlt. simpl. lia. }
  apply Qle_shift_div_l; [exact Hpos|]. rewrite Qmult_0_l. exact Hd.
Qed.

(** What a selected candidate is: one of the two brackets, positive, with
    its own errors, and of least absolute error when [c_low > 0]. *)
Lemma select_candidate_spec (froot : Z -> Z -> Z -> Z) n a b c error rel_error :
  select_candidate froot n a b = Some (Some (c, error, rel_error)) ->
  0 < c /\ (c = froot a b n \/ c = froot a b n + 1) /\
  fermat_difference a b c n = Some error /\
  fermat_relative_error a b c n = Some rel_error /\
  (0 < froot a b n -> forall c' e', c' = froot a b n \/ c' = froot a b n + 1 ->
     fermat_difference a b c' n = Some e' -> (error <= e')%Q).
Proof.
  unfold select_candidate. destruct (n =? 0); [discriminate|].
  destruct (fermat_difference a b (froot a b n) n) as [el|] eqn:Hl; [|discriminate].
  simpl.
  destruct (fermat_difference a b (froot a b n + 1) n) as [eh|] eqn:Hh; [|discriminate].
  simpl.
  destruct (Qle_bool el eh) eqn:Hle; destruct (Z.ltb_spec 0 (froot a b n)) as [Hpos|Hpos];
    simpl;
    try (destruct (Z.ltb_spec 0 (froot a b n + 1)); [|discriminate]);
    (destruct (fermat_relative_error a b _ n) as [r|] eqn:Hr; [|discriminate]);
    simpl; intros [= <- <- <-];
    (split; [lia|split; [tauto|split; [assumption|split; [assumption|]]]]);
    intros Hp c' e' [-> | ->] He'; rewrite ?Hl, ?Hh in He'; injection He' as <-;
    try lia; try apply Qle_refl.
  - apply Qle_bool_iff. assumption.
  - apply Qlt_le_weak, Qnot_le_lt. intros Hq. apply Qle_bool_iff in Hq. congruence.
Qed.

(** ** The batch generator *)

Section Batch.

Variable froot : Z -> Z -> Z -> Z.
Variable fsqrt : Z -> Z.

Lemma gen_loop_lookup max_value n_values acc results n rows :
  gen_loop froot fsqrt max_value n_values acc = Some results ->
  results !! n = Some rows ->
  acc !! n = Some rows \/ rows_for froot fsqrt max_value n = Some rows.
Proof.
  revert acc; induction n_values as [|n' ns IH]; simpl; intros acc H Hn.
  - injection H as <-. auto.
  - destruct (rows_for froot fsqrt max_value n') as [data|] eqn:Hd;
      [|discriminate]. simpl in H.
    destruct (IH _ H Hn) as [Hacc|Hr]; [|auto].
    apply lookup_insert_Some in Hacc as [[<- <-]|[_ Hacc]]; auto.
Qed.

Lemma generate_test_cases_lookup max_value n_values results n rows :
  generate_test_cases froot fsqrt max_value n_values = Some results ->
  results !! n = Some rows ->
  rows_for froot fsqrt max_value n = Some rows.
Proof.
  intros H Hn. destruct (gen_loop_lookup _ _ _ _ _ _ H Hn) as [Hacc|Hr]; [|exact Hr].
  rewrite lookup_empty in Hacc. discriminate.
Qed.



End Batch.

Lemma grid_rows_in froot max_value n rows r :
  grid_rows froot max_value n = Some rows -> In r rows ->
  exists a b c error rel_error,
    1 <= a <= Z.min max_value 30 /\ 1 <= b <= Z.min max_value 30 /\
    select_candidate froot n a b = Some (Some (c, error, rel_error)) /\
    r = mkRow a b c error rel_error n /\
    (2 < n -> Qle_bool rel_error (1 # 10) = true).
Proof.
  unfold grid_rows. intros H Hr.
  destruct (for_append_in _ _ _ _ H Hr) as ([a b] & zs & Hab & Hb & Hz).
  apply in_prod_iff in Hab as [Ha Hb']. apply in_range_py in Ha, Hb'.
  simpl in Hb.
  destruct (select_candidate froot n a b) as [[[[c e] rel]|]|] eqn:Hs;
    simpl in Hb; [|injection Hb as <-; contradiction|discriminate].
  exists a, b, c, e, rel.
  destruct (Z.ltb_spec 2 n); destruct (Qle_bool rel (1 # 10)); simpl in Hb;
    injection Hb as <-; try contradiction; destruct Hz as [<-|[]];
    (split; [lia|split; [lia|split; [exact Hs|split; [reflexivity|]]]]);
    intros; first [reflexivity | lia].
Qed.

Lemma grid_rows_complete froot max_value n rows a b c error rel_error :
  grid_rows froot max_value n = Some rows ->
  1 <= a <= Z.min max_value 30 -> 1 <= b <= Z.min max_value 30 ->
  select_candidate froot n a b = Some (Some (c, error, rel_error)) ->
  n <= 2 ->
  In (mkRow a b c error rel_error n) rows.
Proof.
  unfold grid_rows. intros H Ha Hb Hs Hn.
  eapply (for_append_complete _ _ _ (a, b) [mkRow a b c error rel_error n]);
    [exact H| | |left; reflexivity].
  - apply in_prod; apply in_range_py; lia.
  - simpl. rewrite Hs. simpl. destruct (Z.ltb_spec 2 n); [lia|reflexivity].
Qed.

Lemma rows_for_split froot fsqrt max_value n rows :
  rows_for froot fsqrt max_value n = Some rows ->
  exists grid, grid_rows froot max_value n = Some grid /\
    rows = grid ++ (if n =? 2 then exact_rows fsqrt max_value n else []).
Proof.
  unfold rows_for. destruct (grid_rows froot max_value n) as [grid|]; [|discriminate].
  simpl. intros [= <-]. eauto.
Qed.

(** ** Claims about [generate_test_cases] *)

(** C1: in a batch result, every row of an exponent [n > 2] has
    [0 <= relative_error <= 0.1]; for [n = 2] the threshold filter is not
    applied: every selected grid candidate is a row, whatever its
    relative error. *)
Theorem batch_relative_error_within_threshold froot fsqrt max_value n_values
    results n rows :
  generate_test_cases froot fsqrt max_value n_values = Some results ->
  results !! n = Some rows ->
  (2 < n -> forall r, In r rows -> (0 <= row_relative_error r <= 1 # 10)%Q) /\
  (n = 2 -> forall a b c error rel_error,
     1 <= a <= Z.min max_value 30 -> 1 <= b <= Z.min max_value 30 ->
     select_candidate froot n a b = Some (Some (c, error, rel_error)) ->
     In (mkRow a b c error rel_error n) rows).
Proof.
  intros Hgen Hn.
  destruct (rows_for_split froot fsqrt max_value n rows
              (generate_test_cases_lookup _ _ _ _ _ _ _ Hgen Hn))
    as (grid & Hgrid & ->).
  split.
  - intros H2 r Hr. destruct (Z.eqb_spec n 2); [lia|]. rewrite app_nil_r in Hr.
    destruct (grid_rows_in _ _ _ _ _ Hgrid Hr)
      as (a & b & c & e & rel & _ & _ & Hs & -> & Hf).
    apply select_candidate_spec in Hs as (Hc & _ & _ & Hrel & _).
    simpl. split.
    + eapply fermat_relative_error_nonneg; [|exact Hc|exact Hrel]. lia.
    + apply Qle_bool_iff, Hf. exact H2.
  - intros -> a b c e rel Ha Hb Hs. apply in_or_app. left.
    eapply grid_rows_complete; eauto. lia.
Qed.

Lemma batch_relative_error_within_threshold_witness :
  exists results rows,
    generate_test_cases int_root Z.sqrt 12 [2; 3] = Some results /\
    results !! 3 = Some rows /\ rows <> [] /\
    forall r, In r rows -> (0 <= row_relative_error r <= 1 # 10)%Q.
Proof.
  set (results := from_option id ∅ (generate_test_cases int_root Z.sqrt 12 [2; 3])).
  set (rows := from_option id [] (results !! 3)).
  assert (H1 : generate_test_cases int_root Z.sqrt 12 [2; 3] = Some results)
    by (vm_compute; reflexivity).
  assert (H2 : results !! 3 = Some rows) by (vm_compute; reflexivity).
  exists results, rows. split; [exact H1|split; [exact H2|split]].
  - vm_compute. discriminate.
  - destruct (batch_relative_error_within_threshold int_root Z.sqrt 12 [2; 3]
               results 3 rows H1 H2) as [Hgt _].
    apply Hgt. lia.
Defined.

Lemma exact_rows_in fsqrt max_value n r :
  In r (exact_rows fsqrt max_value n) ->
  exists a b, 1 <= a <= max_value /\ a <= b <= max_value /\
    In r (exact_body fsqrt max_value n a b).
Proof.
  unfold exact_rows. intros H.
  apply in_flat_map in H as (a & Ha & H). apply in_flat_map in H as (b & Hb & H).
  apply in_range_py in Ha, Hb. exists a, b. split; [lia|split; [lia|exact H]].
Qed.

(** C2: every row of the [n = 2] exact pass is a Pythagorean triple with
    [a <= b], [a < c], [b < c], [c <= max_value] and zero errors, provided
    [int(np.sqrt(s))] is not negative. *)
Theorem exact_rows_pythagorean (fsqrt : Z -> Z) max_value r :
  (forall s, 0 <= s -> 0 <= fsqrt s) ->
  In r (exact_rows fsqrt max_value 2) ->
  row_a r ^ 2 + row_b r ^ 2 = row_c r ^ 2 /\
  row_error r = 0%Q /\ row_relative_error r = 0%Q /\ row_n r = 2 /\
  1 <= row_a r <= row_b r /\ row_a r < row_c r /\ row_b r < row_c r /\
  row_c r <= max_value.
Proof.
  intros Hpos Hr. apply exact_rows_in in Hr as (a & b & Ha & Hb & Hr).
  unfold exact_body in Hr.
  destruct (Z.eqb_spec (fsqrt (a ^ 2 + b ^ 2) ^ 2) (a ^ 2 + b ^ 2)) as [Hsq|];
    [|contradiction].
  destruct (Z.leb_spec (fsqrt (a ^ 2 + b ^ 2)) max_value) as [Hle|];
    [|contradiction].
  destruct Hr as [<-|[]]; simpl.
  pose proof (Hpos (a ^ 2 + b ^ 2) ltac:(nia)) as Hc.
  set (c := fsqrt (a ^ 2 + b ^ 2)) in *.
  repeat split; try lia; nia.
Qed.

Lemma exact_rows_pythagorean_witness :
  (forall s, 0 <= s -> 0 <= Z.sqrt s) /\
  In (mkRow 3 4 5 0%Q 0%Q 2) (exact_rows Z.sqrt 5 2) /\
  3 ^ 2 + 4 ^ 2 = 5 ^ 2 /\ 1 <= 3 <= 4 /\ 3 < 5 /\ 4 < 5 /\ 5 <= 5.
Proof.
  assert (Hpos : forall s, 0 <= s -> 0 <= Z.sqrt s) by (intros s _; apply Z.sqrt_nonneg).
  assert (Hin : In (mkRow 3 4 5 0%Q 0%Q 2) (exact_rows Z.sqrt 5 2))
    by (vm_compute; tauto).
  pose proof (exact_rows_pythagorean Z.sqrt 5 _ Hpos Hin) as H; simpl in H.
  tauto.
Defined.

(** C3: at [max_value = 2], [n_values = [2]] the grid pass emits the row
    [(a, b, c) = (2, 2, 3)]: [c_low = int(8 ** 0.5) = 2] has error 4,
    [c_high = 3] has error 1, and [c = 3] exceeds [max_value]. *)
Theorem batch_c_exceeds_max_value :
  exists results rows,
    generate_test_cases int_root Z.sqrt 2 [2] = Some results /\
    results !! 2 = Some rows /\
    In (mkRow 2 2 3 1 (1 # 9) 2) rows /\ 2 < 3.
Proof.
  set (results := from_option id ∅ (generate_test_cases int_root Z.sqrt 2 [2])).
  set (rows := from_option id [] (results !! 2)).
  exists results, rows.
  split; [vm_compute; reflexivity|split; [vm_compute; reflexivity|split; [|lia]]].
  vm_compute. tauto.
Qed.

Lemma grid_body_keyed froot n ab zs :
  grid_body froot n ab = Some zs ->
  (length zs <= 1)%nat /\ forall r, In r zs -> (row_a r, row_b r) = ab.
Proof.
  destruct ab as [a b]. simpl.
  destruct (select_candidate froot n a b) as [[[[c e] rel]|]|]; simpl;
    [|intros [= <-]; simpl; split; [lia|contradiction]|discriminate].
  destruct ((2 <? n) && negb (Qle_bool rel (1 # 10))); intros [= <-]; simpl;
    (split; [lia|]); intros r Hr; [contradiction|].
  destruct Hr as [<-|[]]. reflexivity.
Qed.

(** C4 (as amended): the rows of exponent [n] are the grid rows followed,
    for [n = 2] only, by the rows of the exact pass. The grid rows hold at
    most one row per [(a, b)], and its [c] is a bracketing candidate of
    least absolute error whenever [c_low > 0]. *)
Theorem batch_grid_one_row_per_pair froot fsqrt max_value n_values results n rows :
  generate_test_cases froot fsqrt max_value n_values = Some results ->
  results !! n = Some rows ->
  exists grid,
    rows = grid ++ (if n =? 2 then exact_rows fsqrt max_value n else []) /\
    NoDup (map (fun r => (row_a r, row_b r)) grid) /\
    forall r, In r grid ->
      let c_low := froot (row_a r) (row_b r) n in
      0 < row_c r /\ (row_c r = c_low \/ row_c r = c_low + 1) /\
      fermat_difference (row_a r) (row_b r) (row_c r) n = Some (row_error r) /\
      (0 < c_low -> forall c' e', c' = c_low \/ c' = c_low + 1 ->
         fermat_difference (row_a r) (row_b r) c' n = Some e' ->
         (row_error r <= e')%Q).
Proof.
  intros Hgen Hn.
  destruct (rows_for_split froot fsqrt max_value n rows
              (generate_test_cases_lookup _ _ _ _ _ _ _ Hgen Hn))
    as (grid & Hgrid & ->).
  exists grid. split; [reflexivity|split].
  - unfold grid_rows in Hgrid.
    apply (for_append_nodup (fun r => (row_a r, row_b r)) _ _ _ Hgrid).
    + apply list_prod_nodup; apply range_py_nodup.
    + apply grid_body_keyed.
  - intros r Hr. destruct (grid_rows_in _ _ _ _ _ Hgrid Hr)
      as (a & b & c & e & rel & _ & _ & Hs & -> & _).
    apply select_candidate_spec in Hs as (Hc & Hbr & Hd & _ & Hmin).
    simpl. auto.
Qed.

Lemma batch_grid_one_row_per_pair_witness :
  exists results rows,
    generate_test_cases int_root Z.sqrt 5 [2; 3] = Some results /\
    results !! 2 = Some rows /\
    exists grid, rows = grid ++ exact_rows Z.sqrt 5 2 /\
      NoDup (map (fun r => (row_a r, row_b r)) grid).
Proof.
  set (results := from_option id ∅ (generate_test_cases int_root Z.sqrt 5 [2; 3])).
  set (rows := from_option id [] (results !! 2)).
  assert (H1 : generate_test_cases int_root Z.sqrt 5 [2; 3] = Some results)
    by (vm_compute; reflexivity).
  assert (H2 : results !! 2 = Some rows) by (vm_compute; reflexivity).
  exists results, rows. split; [exact H1|split; [exact H2|]].
  destruct (batch_grid_one_row_per_pair int_root Z.sqrt 5 [2; 3] results 2 rows H1 H2)
    as (grid & Hrows & Hnd & _).
  exists grid. split; [exact Hrows|exact Hnd].
Defined.

(** C4 fails as stated: for [max_value = 5], [n = 2] the pair [(3, 4)] has
    two rows, one from the grid pass and one from the exact pass. *)
Lemma batch_duplicate_pair_n2 :
  exists results rows,
    generate_test_cases int_root Z.sqrt 5 [2] = Some results /\
    results !! 2 = Some rows /\
    length (filter (fun r => (row_a r =? 3) && (row_b r =? 4)) rows) = 2%nat.
Proof.
  set (results := from_option id ∅ (generate_test_cases int_root Z.sqrt 5 [2])).
  set (rows := from_option id [] (results !! 2)).
  exists results, rows.
  split; [vm_compute; reflexivity|split; [vm_compute; reflexivity|]].
  vm_compute. reflexivity.
Qed.

Lemma for_append_all_some {A B} (body : A -> option (list B)) xs ys x :
  for_append body xs = Some ys -> In x xs -> exists zs, body x = Some zs.
Proof.
  revert ys; induction xs as [|x' xs IH]; simpl; intros ys H Hx; [contradiction|].
  destruct (body x') as [zs|] eqn:Hb; [|discriminate]; simpl in H.
  destruct (for_append body xs) as [ws|] eqn:Hw; [|discriminate].
  destruct Hx as [<-|Hx]; eauto.
Qed.

Lemma range_py_empty lo hi : hi <= lo -> range_py lo hi = [].
Proof. intros H. unfold range_py. replace (Z.to_nat (hi - lo)) with 0%nat by lia. reflexivity. Qed.

Lemma rows_for_empty froot fsqrt max_value n :
  max_value <= 0 -> rows_for froot fsqrt max_value n = Some [].
Proof.
  intros H. unfold rows_for, grid_rows, exact_rows.
  rewrite !range_py_empty by lia. simpl. destruct (n =? 2); reflexivity.
Qed.

Lemma gen_loop_empty froot fsqrt max_value n_values acc :
  max_value <= 0 ->
  exists results, gen_loop froot fsqrt max_value n_values acc = Some results /\
    forall n, results !! n = if decide (n ∈ n_values) then Some [] else acc !! n.
Proof.
  intros Hm. revert acc; induction n_values as [|n' ns IH]; simpl; intros acc.
  - exists acc. split; [reflexivity|]. intros n.
    destruct (decide (n ∈ [])) as [Hin|]; [|reflexivity]. inversion Hin.
  - rewrite rows_for_empty by exact Hm. simpl.
    destruct (IH (<[n' := []]> acc)) as (results & Hr & Hl).
    exists results. split; [exact Hr|]. intros m. rewrite Hl.
    destruct (decide (m ∈ n' :: ns)) as [Hin|Hnin].
    + destruct (decide (m ∈ ns)); [reflexivity|].
      apply elem_of_cons in Hin as [->|Hin]; [apply lookup_insert_eq|contradiction].
    + apply not_elem_of_cons in Hnin as [Hne Hnin].
      destruct (decide (m ∈ ns)); [contradiction|].
      apply lookup_insert_ne. congruence.
Qed.

Lemma gen_loop_zero_exponent froot fsqrt max_value n_values acc :
  1 <= max_value -> 0 ∈ n_values ->
  gen_loop froot fsqrt max_value n_values acc = None.
Proof.
  intros Hm Hin. revert acc; induction n_values as [|n' ns IH]; simpl; intros acc.
  - inversion Hin.
  - destruct (rows_for froot fsqrt max_value n') as [data|] eqn:Hd; [|reflexivity].
    simpl. apply elem_of_cons in Hin as [<-|Hin]; [|apply IH; exact Hin].
    exfalso. unfold rows_for in Hd.
    destruct (grid_rows froot max_value 0) as [g|] eqn:Hg; [|discriminate].
    unfold grid_rows in Hg.
    destruct (for_append_all_some _ _ _ (1, 1) Hg) as [zs Hz].
    + apply in_prod; apply in_range_py; lia.
    + discriminate.
Qed.

(** C5 (as amended): there is no bound validation. With [max_value <= 0]
    both generators return without raising: an empty row list for every
    exponent of [n_values] (whatever its sign), and an empty list of
    near-solutions. An exponent [0] raises [ZeroDivisionError] (from [1/n])
    only once the grid is not empty, i.e. for [max_value >= 1]. *)
Theorem generators_do_not_validate_bounds froot fsqrt max_value n_values :
  (max_value <= 0 ->
     exists results,
       generate_test_cases froot fsqrt max_value n_values = Some results /\
       forall n, results !! n = if decide (n ∈ n_values) then Some [] else None) /\
  (max_value <= 0 -> forall n t, find_near_solutions froot max_value n t = Some []) /\
  (1 <= max_value -> 0 ∈ n_values ->
     generate_test_cases froot fsqrt max_value n_values = None) /\
  (1 <= max_value -> forall t, find_near_solutions froot max_value 0 t = None).
Proof.
  split; [|split; [|split]].
  - intros Hm. destruct (gen_loop_empty froot fsqrt max_value n_values ∅ Hm)
      as (results & Hr & Hl).
    exists results. split; [exact Hr|]. intros n. rewrite Hl, lookup_empty.
    reflexivity.
  - intros Hm n t. unfold find_near_solutions. rewrite range_py_empty by lia.
    reflexivity.
  - intros Hm Hin. apply gen_loop_zero_exponent; assumption.
  - intros Hm t. unfold find_near_solutions.
    destruct (for_append (near_body froot max_value 0 t) _) as [l|] eqn:Hl;
      [|reflexivity].
    destruct (for_append_all_some _ _ _ (1, 1) Hl) as [zs Hz].
    + apply in_prod; apply in_range_py; lia.
    + discriminate.
Qed.

(** C5 fails as stated: [max_value = 0] with exponents [2], [0] and [-1]
    is not rejected, and neither is [max_value = 0] in the search. *)
Lemma invalid_bounds_not_rejected :
  generate_test_cases int_root Z.sqrt 0 [2; 0; -1] =
    Some (<[-1 := []]> (<[0 := []]> (<[2 := []]> ∅))) /\
  find_near_solutions int_root 0 3 (1 # 10) = Some [].
Proof. split; vm_compute; reflexivity. Qed.

(** ** Claims about [find_near_solutions] *)

Lemma near_body_unfold froot max_value n t a b :
  near_body froot max_value n t (a, b) =
  if n =? 0 then None
  else for_append (near_candidate max_value n t a b) [froot a b n; froot a b n + 1].
Proof. reflexivity. Qed.

Lemma find_near_solutions_in froot max_value n t l s :
  find_near_solutions froot max_value n t = Some l -> In s l ->
  exists a b c error rel_error,
    1 <= a <= max_value /\ 1 <= b <= max_value /\
    (c = froot a b n \/ c = froot a b n + 1) /\ 0 < c <= max_value /\
    fermat_difference a b c n = Some error /\
    fermat_relative_error a b c n = Some rel_error /\
    (rel_error <= t)%Q /\ s = mkNear a b c error rel_error.
Proof.
  unfold find_near_solutions. intros H Hs.
  destruct (for_append_in _ _ _ _ H Hs) as ([a b] & zs & Hab & Hb & Hz).
  apply in_prod_iff in Hab as [Ha Hb']. apply in_range_py in Ha, Hb'.
  rewrite near_body_unfold in Hb. destruct (n =? 0); [discriminate|].
  destruct (for_append_in _ _ _ _ Hb Hz) as (c & ws & Hc & Hw & Hsw).
  unfold near_candidate in Hw.
  destruct (Z.leb_spec c 0), (Z.ltb_spec max_value c); simpl in Hw;
    try (injection Hw as <-; contradiction).
  destruct (fermat_difference a b c n) as [e|] eqn:He; [|discriminate]. simpl in Hw.
  destruct (fermat_relative_error a b c n) as [r|] eqn:Hr; [|discriminate].
  simpl in Hw. destruct (Qle_bool r t) eqn:Hq; injection Hw as <-; [|contradiction].
  destruct Hsw as [<-|[]].
  exists a, b, c, e, r. apply Qle_bool_iff in Hq.
  repeat split; try lia; try assumption.
  destruct Hc as [<-|[<-|[]]]; auto.
Qed.

(** C6: every returned triple passes the threshold, and each bracketing
    candidate [c_low] or [c_low + 1] of a pair that lies in [1, max_value]
    and passes the threshold is returned: both when both do. *)
Theorem near_solutions_inclusive_filter froot max_value n t l :
  find_near_solutions froot max_value n t = Some l ->
  (forall s, In s l ->
     fermat_relative_error (near_a s) (near_b s) (near_c s) n =
       Some (near_relative_error s) /\ (near_relative_error s <= t)%Q) /\
  (forall a b c error rel_error,
     1 <= a <= max_value -> 1 <= b <= max_value ->
     c = froot a b n \/ c = froot a b n + 1 -> 0 < c <= max_value ->
     fermat_difference a b c n = Some error ->
     fermat_relative_error a b c n = Some rel_error -> (rel_error <= t)%Q ->
     In (mkNear a b c error rel_error) l).
Proof.
  intros H. split.
  - intros s Hs.
    destruct (find_near_solutions_in _ _ _ _ _ _ H Hs)
      as (a & b & c & e & r & _ & _ & _ & _ & _ & Hr & Hq & ->).
    simpl. auto.
  - intros a b c e r Ha Hb Hc Hcm He Hr Hq. unfold find_near_solutions in H.
    destruct (for_append_all_some _ _ _ (a, b) H) as [zs Hz].
    { apply in_prod; apply in_range_py; lia. }
    eapply (for_append_complete _ _ _ (a, b) zs); [exact H| |exact Hz|].
    { apply in_prod; apply in_range_py; lia. }
    rewrite near_body_unfold in Hz. destruct (n =? 0); [discriminate|].
    eapply (for_append_complete _ _ _ c [mkNear a b c e r]); [exact Hz| | |left; reflexivity].
    + destruct Hc as [->| ->]; simpl; auto.
    + unfold near_candidate.
      destruct (Z.leb_spec c 0), (Z.ltb_spec max_value c); try lia. simpl.
      rewrite He, Hr. simpl. apply Qle_bool_iff in Hq. rewrite Hq. reflexivity.
Qed.

Lemma near_solutions_inclusive_filter_witness :
  exists l, find_near_solutions int_root 10 1 (1 # 10) = Some l /\
    In (mkNear 4 5 9 0%Q (0 # 9)) l /\ In (mkNear 4 5 10 1 (1 # 10)) l /\
    fermat_relative_error 4 5 10 1 = Some (1 # 10).
Proof.
  set (l := from_option id [] (find_near_solutions int_root 10 1 (1 # 10))).
  assert (H : find_near_solutions int_root 10 1 (1 # 10) = Some l)
    by (vm_compute; reflexivity).
  destruct (near_solutions_inclusive_filter int_root 10 1 (1 # 10) l H)
    as [Hall Hboth].
  exists l. split; [exact H|split; [|split]].
  - apply (Hboth 4 5 9 0%Q (0 # 9)); try lia; try reflexivity.
    + left. reflexivity.
    + apply Qle_bool_iff. reflexivity.
  - apply (Hboth 4 5 10 1%Q (1 # 10)); try lia; try reflexivity.
    + right. reflexivity.
    + apply Qle_refl.
  - reflexivity.
Defined.

(** C7: raising the threshold keeps every previously returned triple. *)
Theorem near_solutions_threshold_monotone froot max_value n t1 t2 l1 :
  (t1 <= t2)%Q ->
  find_near_solutions froot max_value n t1 = Some l1 ->
  exists l2, find_near_solutions froot max_value n t2 = Some l2 /\
    forall s, In s l1 -> In s l2.
Proof.
  intros Ht H. unfold find_near_solutions in *.
  apply (for_append_incl _ _ _ _ H). intros [a b] zs1 _ Hz1.
  rewrite near_body_unfold in *. destruct (n =? 0); [discriminate|].
  cbv beta iota in Hz1 |- *.
  apply (for_append_incl _ _ _ _ Hz1). intros c ws1 _ Hw1.
  unfold near_candidate in Hw1 |- *.
  destruct ((c <=? 0) || (max_value <? c)).
  { injection Hw1 as <-. exists []. split; [reflexivity|contradiction]. }
  destruct (fermat_difference a b c n) as [e|]; [|discriminate]. simpl in Hw1 |- *.
  destruct (fermat_relative_error a b c n) as [r|]; [|discriminate].
  simpl in Hw1 |- *.
  destruct (Qle_bool r t1) eqn:Hq1.
  - injection Hw1 as <-. apply Qle_bool_iff in Hq1.
    assert (Hq2 : Qle_bool r t2 = true) by (apply Qle_bool_iff; eapply Qle_trans; eauto).
    rewrite Hq2. eauto.
  - injection Hw1 as <-.
    destruct (Qle_bool r t2); eexists; (split; [reflexivity|contradiction]).
Qed.

Lemma near_solutions_threshold_monotone_witness :
  exists l1 l2,
    find_near_solutions int_root 10 3 (1 # 10) = Some l1 /\ l1 <> [] /\
    find_near_solutions int_root 10 3 (1 # 2) = Some l2 /\
    forall s, In s l1 -> In s l2.
Proof.
  set (l1 := from_option id [] (find_near_solutions int_root 10 3 (1 # 10))).
  assert (H : find_near_solutions int_root 10 3 (1 # 10) = Some l1)
    by (vm_compute; reflexivity).
  assert (Ht : (1 # 10 <= 1 # 2)%Q) by (apply Qle_bool_iff; reflexivity).
  destruct (near_solutions_threshold_monotone int_root 10 3 _ _ l1 Ht H)
    as (l2 & H2 & Hincl).
  exists l1, l2. split; [exact H|split; [vm_compute; discriminate|split; assumption]].
Defined.

(** C10: every returned record has [a], [b] and [c] in [1, max_value]. *)
Theorem near_solutions_within_bounds froot max_value n t l :
  find_near_solutions froot max_value n t = Some l ->
  forall s, In s l ->
    1 <= near_a s <= max_value /\ 1 <= near_b s <= max_value /\
    1 <= near_c s <= max_value.
Proof.
  intros H s Hs.
  destruct (find_near_solutions_in _ _ _ _ _ _ H Hs)
    as (a & b & c & e & r & Ha & Hb & _ & Hc & _ & _ & _ & ->).
  simpl. lia.
Qed.

Lemma near_solutions_within_bounds_witness :
  exists l, find_near_solutions int_root 12 3 (1 # 10) = Some l /\
    In (mkNear 9 10 12 1 (1 # 1728)) l /\
    1 <= 12 <= 12.
Proof.
  set (l := from_option id [] (find_near_solutions int_root 12 3 (1 # 10))).
  assert (H : find_near_solutions int_root 12 3 (1 # 10) = Some l)
    by (vm_compute; reflexivity).
  assert (Hin : In (mkNear 9 10 12 1 (1 # 1728)) l) by (vm_compute; tauto).
  pose proof (near_solutions_within_bounds int_root 12 3 _ l H _ Hin) as Hb.
  simpl in Hb. exists l. split; [exact H|split; [exact Hin|tauto]].
Defined.

(** ** Completeness of the [n = 2] pass and the division by zero *)

(** C8: every Pythagorean triple [1 <= a <= b], [a^2 + b^2 = c^2] with
    [c <= max_value] is a row (with zero errors) of the [n = 2] result. The
    float square root is assumed exact on perfect squares [k * k <= 2^53],
    the range where [float(k * k)] is exact and IEEE [sqrt] returns [k]. *)
Theorem exact_pass_complete froot fsqrt max_value n_values results rows a b c :
  (forall k, 0 <= k -> k * k <= 2 ^ 53 -> fsqrt (k * k) = k) ->
  1 <= a <= b -> a ^ 2 + b ^ 2 = c ^ 2 -> 0 < c -> c <= max_value ->
  c * c <= 2 ^ 53 ->
  generate_test_cases froot fsqrt max_value n_values = Some results ->
  results !! 2 = Some rows ->
  In (mkRow a b c 0%Q 0%Q 2) rows.
Proof.
  intros Hsqrt Hab Hpy Hc Hcm Hbig Hgen Hn.
  destruct (rows_for_split froot fsqrt max_value 2 rows
              (generate_test_cases_lookup _ _ _ _ _ _ _ Hgen Hn))
    as (grid & _ & ->).
  simpl. apply in_or_app. right.
  assert (Hbc : b < c) by nia.
  unfold exact_rows. apply in_flat_map. exists a. split.
  { apply in_range_py. lia. }
  apply in_flat_map. exists b. split.
  { apply in_range_py. lia. }
  unfold exact_body. rewrite Hpy.
  replace (c ^ 2) with (c * c) by ring.
  rewrite (Hsqrt c) by lia.
  replace (c ^ 2) with (c * c) by ring. rewrite Z.eqb_refl. destruct (Z.leb_spec c max_value); [|lia].
  left. reflexivity.
Qed.

Lemma exact_pass_complete_witness :
  exists results rows,
    generate_test_cases int_root Z.sqrt 10 [2] = Some results /\
    results !! 2 = Some rows /\
    In (mkRow 6 8 10 0%Q 0%Q 2) rows.
Proof.
  set (results := from_option id ∅ (generate_test_cases int_root Z.sqrt 10 [2])).
  set (rows := from_option id [] (results !! 2)).
  assert (H1 : generate_test_cases int_root Z.sqrt 10 [2] = Some results)
    by (vm_compute; reflexivity).
  assert (H2 : results !! 2 = Some rows) by (vm_compute; reflexivity).
  exists results, rows. split; [exact H1|split; [exact H2|]].
  apply (exact_pass_complete int_root Z.sqrt 10 [2] results rows 6 8 10);
    try lia; try assumption.
  intros k Hk _. apply Z.sqrt_square. exact Hk.
Defined.

(** C9 (as amended): for every exponent [n >= 1], [fermat_relative_error]
    raises [ZeroDivisionError] exactly when [c = 0]. *)
Theorem fermat_relative_error_fails_iff_c_zero a b c n :
  1 <= n -> fermat_relative_error a b c n = None <-> c = 0.
Proof.
  intros Hn. unfold fermat_relative_error.
  rewrite fermat_difference_nonneg_exp by lia. simpl.
  rewrite pow_py_nonneg by lia. simpl. unfold div_py.
  destruct (Qeq_bool (inject_Z (c ^ n)) 0) eqn:E.
  - apply Qeq_bool_iff in E. unfold Qeq in E. simpl in E.
    rewrite Z.mul_1_r in E. apply Z.pow_eq_0_iff in E. split; [lia|reflexivity].
  - split; [discriminate|]. intros ->. rewrite Z.pow_0_l in E by lia.
    discriminate.
Qed.

Lemma fermat_relative_error_fails_iff_c_zero_witness :
  1 <= 2 /\ fermat_relative_error 3 4 0 2 = None /\
  fermat_relative_error 3 4 5 2 <> None.
Proof.
  assert (Hn : 1 <= 2) by lia.
  pose proof (fermat_relative_error_fails_iff_c_zero 3 4 0 2 Hn) as H0.
  pose proof (fermat_relative_error_fails_iff_c_zero 3 4 5 2 Hn) as H5.
  split; [exact Hn|split].
  - apply H0. reflexivity.
  - intros H. apply H5 in H. discriminate.
Defined.

(** C9 fails as stated: with [n = 0], [0 ** 0 == 1] and [c = 0] returns
    [abs(1 + 1 - 1) / 1 = 1] instead of raising. *)
Lemma relative_error_c_zero_n_zero :
  fermat_relative_error 1 1 0 0 = Some 1%Q.
Proof. reflexivity. Qed.

(** ** Further properties of [fermat_utils.py] *)









Lemma qabs_diff_zero x y z :
  Qeq_bool (Qabs (inject_Z x + inject_Z y - inject_Z z)) 0 = (x + y =? z).
Proof.
  destruct (Qeq_bool _ 0) eqn:E; destruct (Z.eqb_spec (x + y) z); try reflexivity.
  - apply Qeq_bool_iff in E. unfold Qeq in E. simpl in E. lia.
  - exfalso. apply Qeq_bool_neq in E. apply E. unfold Qeq. simpl. lia.
Qed.

Lemma exact_row_metrics (fsqrt : Z -> Z) max_value r :
  In r (exact_rows fsqrt max_value 2) ->
  row_n r = 2 /\
  exists e q, fermat_difference (row_a r) (row_b r) (row_c r) 2 = Some e /\
    fermat_relative_error (row_a r) (row_b r) (row_c r) 2 = Some q /\
    (row_error r == e)%Q /\ (row_relative_error r == q)%Q.
Proof.
  intros Hr. apply exact_rows_in in Hr as (a & b & Ha & Hb & Hr).
  unfold exact_body in Hr.
  destruct (Z.eqb_spec (fsqrt (a ^ 2 + b ^ 2) ^ 2) (a ^ 2 + b ^ 2)) as [Hsq|];
    [|contradiction].
  destruct (_ <=? max_value); [|contradiction].
  destruct Hr as [<-|[]]; simpl. split; [reflexivity|].
  set (c := fsqrt (a ^ 2 + b ^ 2)) in *.
  assert (Hc : c ^ 2 <> 0) by nia.
  rewrite fermat_difference_nonneg_exp by lia.
  unfold fermat_relative_error. rewrite fermat_difference_nonneg_exp by lia.
  rewrite (pow_py_nonneg c 2) by lia. cbn [mbind option_bind]. unfold div_py.
  destruct (Qeq_bool (inject_Z (c ^ 2)) 0) eqn:E.
  { apply Qeq_bool_iff in E. unfold Qeq in E. simpl in E. lia. }
  assert (Hd : (Qabs (inject_Z (a ^ 2) + inject_Z (b ^ 2) - inject_Z (c ^ 2)) == 0)%Q).
  { apply Qeq_bool_iff. rewrite qabs_diff_zero. apply Z.eqb_eq. lia. }
  do 2 eexists. split; [reflexivity|split; [reflexivity|]].
  split; [symmetry; exact Hd|]. rewrite Hd. unfold Qdiv. rewrite Qmult_0_l.
  reflexivity.
Qed.

Lemma batch_row_metrics_aux froot fsqrt max_value n_values results n rows r :
  generate_test_cases froot fsqrt max_value n_values = Some results ->
  results !! n = Some rows -> In r rows ->
  row_n r = n /\
  exists e q, fermat_difference (row_a r) (row_b r) (row_c r) n = Some e /\
    fermat_relative_error (row_a r) (row_b r) (row_c r) n = Some q /\
    (row_error r == e)%Q /\ (row_relative_error r == q)%Q.
Proof.
  intros Hgen Hn Hr.
  destruct (rows_for_split froot fsqrt max_value n rows
              (generate_test_cases_lookup _ _ _ _ _ _ _ Hgen Hn))
    as (grid & Hgrid & ->).
  apply in_app_or in Hr as [Hr|Hr].
  - destruct (grid_rows_in _ _ _ _ _ Hgrid Hr)
      as (a & b & c & e & rel & _ & _ & Hs & -> & _).
    apply select_candidate_spec in Hs as (_ & _ & Hd & Hrel & _).
    simpl. split; [reflexivity|]. exists e, rel.
    repeat split; first [assumption | reflexivity].
  - destruct (Z.eqb_spec n 2) as [->|]; [|contradiction].
    apply (exact_row_metrics fsqrt max_value r Hr).
Qed.

(** Every row of a batch result, from the grid pass or from the exact pass,
    carries its exponent and the values of [fermat_difference] and
    [fermat_relative_error] for its triple. *)
Theorem batch_rows_record_their_errors froot fsqrt max_value n_values results
    n rows r :
  generate_test_cases froot fsqrt max_value n_values = Some results ->
  results !! n = Some rows -> In r rows ->
  row_n r = n /\
  exists e q, fermat_difference (row_a r) (row_b r) (row_c r) n = Some e /\
    fermat_relative_error (row_a r) (row_b r) (row_c r) n = Some q /\
    (row_error r == e)%Q /\ (row_relative_error r == q)%Q.
Proof. apply batch_row_metrics_aux. Qed.

Lemma batch_rows_record_their_errors_witness :
  exists results rows,
    generate_test_cases int_root Z.sqrt 5 [2] = Some results /\
    results !! 2 = Some rows /\ In (mkRow 3 4 5 0%Q 0%Q 2) rows /\
    exists e q, fermat_difference 3 4 5 2 = Some e /\
      fermat_relative_error 3 4 5 2 = Some q /\ (0 == e)%Q /\ (0 == q)%Q.
Proof.
  set (results := from_option id ∅ (generate_test_cases int_root Z.sqrt 5 [2])).
  set (rows := from_option id [] (results !! 2)).
  assert (H1 : generate_test_cases int_root Z.sqrt 5 [2] = Some results)
    by (vm_compute; reflexivity).
  assert (H2 : results !! 2 = Some rows) by (vm_compute; reflexivity).
  assert (Hin : In (mkRow 3 4 5 0%Q 0%Q 2) rows) by (vm_compute; tauto).
  destruct (batch_rows_record_their_errors int_root Z.sqrt 5 [2] results 2 rows _
              H1 H2 Hin) as [_ Hm].
  exists results, rows. split; [exact H1|split; [exact H2|split; [exact Hin|exact Hm]]].
Defined.

(** The exact-solution count printed by [main] for an exponent [n >= 0]
    counts exactly the rows whose triple satisfies [a^n + b^n = c^n]. *)
Theorem exact_count_counts_solutions froot fsqrt max_value n_values results n rows :
  generate_test_cases froot fsqrt max_value n_values = Some results ->
  results !! n = Some rows -> 0 <= n ->
  exact_count rows =
    length (List.filter (fun r => row_a r ^ n + row_b r ^ n =? row_c r ^ n) rows).
Proof.
  intros Hgen Hn Hn0. unfold exact_count. f_equal. apply filter_ext_in.
  intros r Hr.
  destruct (batch_row_metrics_aux _ _ _ _ _ _ _ _ Hgen Hn Hr)
    as (_ & e & q & Hd & _ & He & _).
  rewrite fermat_difference_nonneg_exp in Hd by exact Hn0. injection Hd as <-.
  rewrite <- qabs_diff_zero.
  destruct (Qeq_bool (row_error r) 0) eqn:E1, (Qeq_bool (Qabs _) 0) eqn:E2;
    try reflexivity; exfalso.
  - apply Qeq_bool_iff in E1. apply Qeq_bool_neq in E2. apply E2.
    rewrite <- He. exact E1.
  - apply Qeq_bool_neq in E1. apply Qeq_bool_iff in E2. apply E1.
    rewrite He. exact E2.
Qed.

Lemma exact_count_counts_solutions_witness :
  exists results rows,
    generate_test_cases int_root Z.sqrt 5 [2] = Some results /\
    results !! 2 = Some rows /\ 0 <= 2 /\
    exact_count rows = 3%nat /\
    exact_count rows =
      length (List.filter (fun r => row_a r ^ 2 + row_b r ^ 2 =? row_c r ^ 2) rows).
Proof.
  set (results := from_option id ∅ (generate_test_cases int_root Z.sqrt 5 [2])).
  set (rows := from_option id [] (results !! 2)).
  assert (H1 : generate_test_cases int_root Z.sqrt 5 [2] = Some results)
    by (vm_compute; reflexivity).
  assert (H2 : results !! 2 = Some rows) by (vm_compute; reflexivity).
  pose proof (exact_count_counts_solutions int_root Z.sqrt 5 [2] results 2 rows
                H1 H2 ltac:(lia)) as Hc.
  exists results, rows. split; [exact H1|split; [exact H2|split; [lia|split]]].
  - vm_compute. reflexivity.
  - exact Hc.
Defined.

(** Every row of a batch result has [a] and [b] in [1, max_value]; outside
    the [n = 2] pass they also stay within the grid cap [30] and [c > 0]. *)
Theorem batch_rows_within_bounds froot fsqrt max_value n_values results n rows r :
  generate_test_cases froot fsqrt max_value n_values = Some results ->
  results !! n = Some rows -> In r rows ->
  1 <= row_a r <= max_value /\ 1 <= row_b r <= max_value /\
  (n <> 2 -> row_a r <= 30 /\ row_b r <= 30 /\ 0 < row_c r).
Proof.
  intros Hgen Hn Hr.
  destruct (rows_for_split froot fsqrt max_value n rows
              (generate_test_cases_lookup _ _ _ _ _ _ _ Hgen Hn))
    as (grid & Hgrid & ->).
  apply in_app_or in Hr as [Hr|Hr].
  - destruct (grid_rows_in _ _ _ _ _ Hgrid Hr)
      as (a & b & c & e & rel & Ha & Hb & Hs & -> & _).
    apply select_candidate_spec in Hs as (Hc & _). simpl. lia.
  - destruct (Z.eqb_spec n 2) as [->|]; [|contradiction].
    apply exact_rows_in in Hr as (a & b & Ha & Hb & Hr).
    unfold exact_body in Hr. destruct (_ && _); [|contradiction].
    destruct Hr as [<-|[]]. simpl. split; [lia|split; [lia|congruence]].
Qed.

Lemma batch_rows_within_bounds_witness :
  exists results rows,
    generate_test_cases int_root Z.sqrt 5 [2] = Some results /\
    results !! 2 = Some rows /\ In (mkRow 3 4 5 0%Q 0%Q 2) rows /\
    1 <= 3 <= 5 /\ 1 <= 4 <= 5.
Proof.
  set (results := from_option id ∅ (generate_test_cases int_root Z.sqrt 5 [2])).
  set (rows := from_option id [] (results !! 2)).
  assert (H1 : generate_test_cases int_root Z.sqrt 5 [2] = Some results)
    by (vm_compute; reflexivity).
  assert (H2 : results !! 2 = Some rows) by (vm_compute; reflexivity).
  assert (Hin : In (mkRow 3 4 5 0%Q 0%Q 2) rows) by (vm_compute; tauto).
  destruct (batch_rows_within_bounds int_root Z.sqrt 5 [2] results 2 rows _
              H1 H2 Hin) as (Ha & Hb & _).
  exists results, rows. repeat split; first [exact H1 | exact H2 | exact Hin | apply Ha | apply Hb].
Defined.

Lemma Qplus_comm_eq (x y : Q) : (x + y)%Q = (y + x)%Q.
Proof.
  destruct x as [xn xd], y as [yn yd]. unfold Qplus. simpl.
  f_equal; [ring | apply Pos.mul_comm].
Qed.

Lemma fermat_difference_comm a b c n :
  fermat_difference a b c n = fermat_difference b a c n.
Proof.
  unfold fermat_difference.
  destruct (pow_py a n) as [x|], (pow_py b n) as [y|];
    cbn [mbind option_bind]; try reflexivity.
  destruct (pow_py c n); cbn [mbind option_bind]; [|reflexivity].
  rewrite (Qplus_comm_eq x y). reflexivity.
Qed.

Lemma fermat_relative_error_comm a b c n :
  fermat_relative_error a b c n = fermat_relative_error b a c n.
Proof. unfold fermat_relative_error. rewrite fermat_difference_comm. reflexivity. Qed.

Lemma select_candidate_comm froot n a b :
  froot a b n = froot b a n ->
  select_candidate froot n a b = select_candidate froot n b a.
Proof.
  intros H. unfold select_candidate. rewrite H.
  rewrite !(fermat_difference_comm a b), !(fermat_relative_error_comm a b).
  reflexivity.
Qed.

Lemma int_root_comm a b n : int_root a b n = int_root b a n.
Proof. unfold int_root. rewrite Z.add_comm. reflexivity. Qed.

Lemma find_near_solutions_complete froot max_value n t l a b c error rel_error :
  find_near_solutions froot max_value n t = Some l ->
  1 <= a <= max_value -> 1 <= b <= max_value ->
  c = froot a b n \/ c = froot a b n + 1 -> 0 < c <= max_value ->
  fermat_difference a b c n = Some error ->
  fermat_relative_error a b c n = Some rel_error -> (rel_error <= t)%Q ->
  In (mkNear a b c error rel_error) l.
Proof.
  intros H Ha Hb Hc Hcm He Hr Hq. unfold find_near_solutions in H.
  destruct (for_append_all_some _ _ _ (a, b) H) as [zs Hz].
  { apply in_prod; apply in_range_py; lia. }
  eapply (for_append_complete _ _ _ (a, b) zs); [exact H| |exact Hz|].
  { apply in_prod; apply in_range_py; lia. }
  rewrite near_body_unfold in Hz. destruct (n =? 0); [discriminate|].
  eapply (for_append_complete _ _ _ c [mkNear a b c error rel_error]);
    [exact Hz| | |left; reflexivity].
  - destruct Hc as [->| ->]; simpl; auto.
  - unfold near_candidate.
    destruct (Z.leb_spec c 0), (Z.ltb_spec max_value c); try lia. simpl.
    rewrite He, Hr. simpl. apply Qle_bool_iff in Hq. rewrite Hq. reflexivity.
Qed.

(** When the root estimate is symmetric in [a] and [b] (as
    [(a**n + b**n)**(1/n)] is), the near solutions are closed under swapping
    [a] and [b]. *)
Theorem find_near_solutions_symmetric froot max_value n t l a b c e r :
  (forall x y, froot x y n = froot y x n) ->
  find_near_solutions froot max_value n t = Some l ->
  In (mkNear a b c e r) l -> In (mkNear b a c e r) l.
Proof.
  intros Hsym H Hin.
  destruct (find_near_solutions_in _ _ _ _ _ _ H Hin)
    as (a' & b' & c' & e' & r' & Ha & Hb & Hc & Hcm & He & Hr & Hq & Heq).
  injection Heq as -> -> -> -> ->.
  apply (find_near_solutions_complete froot max_value n t l); try assumption.
  - rewrite <- Hsym. exact Hc.
  - rewrite fermat_difference_comm. exact He.
  - rewrite fermat_relative_error_comm. exact Hr.
Qed.

Lemma find_near_solutions_symmetric_witness :
  exists l, find_near_solutions int_root 10 3 (1 # 10) = Some l /\
    In (mkNear 6 8 9 1 (1 # 729)) l /\ In (mkNear 8 6 9 1 (1 # 729)) l.
Proof.
  set (l := from_option id [] (find_near_solutions int_root 10 3 (1 # 10))).
  assert (H : find_near_solutions int_root 10 3 (1 # 10) = Some l)
    by (vm_compute; reflexivity).
  assert (Hin : In (mkNear 6 8 9 1 (1 # 729)) l) by (vm_compute; tauto).
  exists l. split; [exact H|split; [exact Hin|]].
  exact (find_near_solutions_symmetric int_root 10 3 (1 # 10) l 6 8 9 1 (1 # 729)
           (fun x y => int_root_comm x y 3) H Hin).
Defined.

Lemma grid_rows_complete_filtered froot max_value n rows a b c error rel_error :
  grid_rows froot max_value n = Some rows ->
  1 <= a <= Z.min max_value 30 -> 1 <= b <= Z.min max_value 30 ->
  select_candidate froot n a b = Some (Some (c, error, rel_error)) ->
  (2 < n -> Qle_bool rel_error (1 # 10) = true) ->
  In (mkRow a b c error rel_error n) rows.
Proof.
  unfold grid_rows. intros H Ha Hb Hs Hq.
  eapply (for_append_complete _ _ _ (a, b) [mkRow a b c error rel_error n]);
    [exact H| | |left; reflexivity].
  - apply in_prod; apply in_range_py; lia.
  - simpl. rewrite Hs. simpl.
    destruct (Z.ltb_spec 2 n); [rewrite Hq by lia|]; reflexivity.
Qed.

(** Outside the [n = 2] pass, when the root estimate is symmetric in [a] and
    [b], the rows of a batch result are closed under swapping [a] and [b]. *)
Theorem batch_rows_symmetric froot fsqrt max_value n_values results n rows
    a b c e r :
  (forall x y, froot x y n = froot y x n) -> n <> 2 ->
  generate_test_cases froot fsqrt max_value n_values = Some results ->
  results !! n = Some rows ->
  In (mkRow a b c e r n) rows -> In (mkRow b a c e r n) rows.
Proof.
  intros Hsym Hn2 Hgen Hn Hr.
  destruct (rows_for_split froot fsqrt max_value n rows
              (generate_test_cases_lookup _ _ _ _ _ _ _ Hgen Hn))
    as (grid & Hgrid & ->).
  destruct (Z.eqb_spec n 2); [contradiction|]. rewrite app_nil_r in *.
  destruct (grid_rows_in _ _ _ _ _ Hgrid Hr)
    as (a' & b' & c' & e' & r' & Ha & Hb & Hs & Heq & Hq).
  injection Heq as -> -> -> -> ->.
  apply (grid_rows_complete_filtered froot max_value n grid); try assumption.
  rewrite <- select_candidate_comm by apply Hsym. exact Hs.
Qed.

Lemma batch_rows_symmetric_witness :
  exists results rows,
    generate_test_cases int_root Z.sqrt 10 [3] = Some results /\
    results !! 3 = Some rows /\
    In (mkRow 6 8 9 1 (1 # 729) 3) rows /\ In (mkRow 8 6 9 1 (1 # 729) 3) rows.
Proof.
  set (results := from_option id ∅ (generate_test_cases int_root Z.sqrt 10 [3])).
  set (rows := from_option id [] (results !! 3)).
  assert (H1 : generate_test_cases int_root Z.sqrt 10 [3] = Some results)
    by (vm_compute; reflexivity).
  assert (H2 : results !! 3 = Some rows) by (vm_compute; reflexivity).
  assert (Hin : In (mkRow 6 8 9 1 (1 # 729) 3) rows) by (vm_compute; tauto).
  exists results, rows. split; [exact H1|split; [exact H2|split; [exact Hin|]]].
  exact (batch_rows_symmetric int_root Z.sqrt 10 [3] results 3 rows 6 8 9 1 (1 # 729)
           (fun x y => int_root_comm x y 3) ltac:(lia) H1 H2 Hin).
Defined.

Lemma gen_loop_capped froot fsqrt m1 m2 n_values acc :
  30 <= m1 -> 30 <= m2 -> ~ In 2 n_values ->
  gen_loop froot fsqrt m1 n_values acc = gen_loop froot fsqrt m2 n_values acc.
Proof.
  intros H1 H2. revert acc. induction n_values as [|n ns IH]; intros acc Hn2;
    [reflexivity|].
  simpl. assert (Hrows : rows_for froot fsqrt m1 n = rows_for froot fsqrt m2 n).
  { unfold rows_for, grid_rows. rewrite (Z.min_r m1 30), (Z.min_r m2 30) by lia.
    destruct (Z.eqb_spec n 2) as [->|]; [simpl in Hn2; tauto|reflexivity]. }
  rewrite Hrows. destruct (rows_for froot fsqrt m2 n); simpl; [|reflexivity].
  apply IH. simpl in Hn2. tauto.
Qed.

(** Without the exponent [2], the grid cap [min(max_value, 30)] makes every
    [max_value >= 30] give the same batch result. *)
Theorem generate_test_cases_capped_at_30 froot fsqrt m1 m2 n_values :
  30 <= m1 -> 30 <= m2 -> ~ In 2 n_values ->
  generate_test_cases froot fsqrt m1 n_values =
  generate_test_cases froot fsqrt m2 n_values.
Proof. intros. apply gen_loop_capped; assumption. Qed.

Lemma generate_test_cases_capped_at_30_witness :
  generate_test_cases int_root Z.sqrt 30 [3] = generate_test_cases int_root Z.sqrt 1000 [3].
Proof.
  apply (generate_test_cases_capped_at_30 int_root Z.sqrt 30 1000 [3]);
    [lia|lia|simpl; intros [H|[]]; discriminate].
Defined.

Lemma minimum_half_cases x :
  (x <= 1 # 2 /\ minimum_half x = x)%Q \/ (1 # 2 < x /\ minimum_half x = 1 # 2)%Q.
Proof.
  unfold minimum_half. destruct (Qle_bool x (1 # 2)) eqn:E.
  - left. apply Qle_bool_iff in E. auto.
  - right. split; [|reflexivity]. apply Qnot_le_lt. intros Hle.
    apply Qle_bool_iff in Hle. congruence.
Qed.

Lemma error_for_color_half x :
  (x <= 1 # 2 -> error_for_color x == 1 - 2 * x)%Q /\
  (1 # 2 < x -> error_for_color x == 0)%Q.
Proof.
  unfold error_for_color. destruct (minimum_half_cases x) as [[Hx ->]|[Hx ->]];
    split; intros H.
  - field.
  - exfalso. apply (Qlt_not_le _ _ H Hx).
  - exfalso. apply (Qlt_not_le _ _ Hx H).
  - reflexivity.
Qed.



(** The colour scale never increases with the relative error. *)
Theorem error_for_color_antitone rel1 rel2 :
  (rel1 <= rel2)%Q -> (error_for_color rel2 <= error_for_color rel1)%Q.
Proof.
  intros H. destruct (error_for_color_half rel1) as [Hlo1 Hhi1].
  destruct (error_for_color_half rel2) as [Hlo2 Hhi2].
  destruct (Qlt_le_dec (1 # 2) rel1) as [H1|H1].
  - assert (H2 : (1 # 2 < rel2)%Q) by (eapply Qlt_le_trans; eassumption).
    rewrite (Hhi1 H1), (Hhi2 H2). apply Qle_refl.
  - rewrite (Hlo1 H1). destruct (Qlt_le_dec (1 # 2) rel2) as [H2|H2].
    + rewrite (Hhi2 H2). lra.
    + rewrite (Hlo2 H2). lra.
Qed.

Lemma error_for_color_antitone_witness :
  (1 # 10 <= 1 # 5)%Q /\ (error_for_color (1 # 5) <= error_for_color (1 # 10))%Q.
Proof.
  split; [discriminate|].
  apply (error_for_color_antitone (1 # 10) (1 # 5)). discriminate.
Defined.



Lemma for_append_nodup_tagged {A B K} (key : B -> K) (tag : K -> A)
    (body : A -> option (list B)) xs ys :
  for_append body xs = Some ys -> NoDup xs ->
  (forall x zs, body x = Some zs ->
     NoDup (map key zs) /\ forall y, In y zs -> tag (key y) = x) ->
  NoDup (map key ys).
Proof.
  revert ys; induction xs as [|x xs IH]; simpl; intros ys H Hnd Hb.
  - injection H as <-. constructor.
  - destruct (body x) as [zs|] eqn:Hbx; [|discriminate]; simpl in H.
    destruct (for_append body xs) as [ws|] eqn:Hw; [|discriminate].
    simpl in H. injection H as <-. inversion Hnd as [|? ? Hx Hnd']; subst.
    destruct (Hb x zs Hbx) as [Hzs Hkey].
    rewrite map_app. apply NoDup_app. split; [exact Hzs|split; [|eauto]].
    intros k Hk Hk'. apply list_elem_of_In, in_map_iff in Hk as (z & <- & Hz).
    apply list_elem_of_In, in_map_iff in Hk' as (w & Hkw & Hw').
    destruct (for_append_in _ _ _ _ Hw Hw') as (x' & zs' & Hx' & Hb' & Hz').
    destruct (Hb x' zs' Hb') as [_ Hk]. apply Hx, list_elem_of_In.
    rewrite <- (Hkey z Hz), <- Hkw, (Hk w Hz'). exact Hx'.
Qed.

Lemma NoDup_map_factor {A K1 K2} (f : A -> K1) (g : A -> K2) l :
  (forall x y, f x = f y -> g x = g y) -> NoDup (map g l) -> NoDup (map f l).
Proof.
  intros Hfg. induction l as [|x l IH]; simpl; intros H; [constructor|].
  apply NoDup_cons in H as [Hx H]. apply NoDup_cons. split; [|auto].
  intros Hin. apply Hx. apply list_elem_of_In in Hin. apply list_elem_of_In.
  apply in_map_iff in Hin as (y & Hy & Hin). apply in_map_iff.
  exists y. split; [apply Hfg; exact Hy|exact Hin].
Qed.

(** [find_near_solutions] never reports the same triple [(a, b, c)] twice:
    the pairs are distinct and so are the two candidates [c_low] and
    [c_low + 1] of a pair. *)
Theorem find_near_solutions_no_duplicate_triples froot max_value n t l :
  find_near_solutions froot max_value n t = Some l ->
  NoDup (map (fun s => (near_a s, near_b s, near_c s)) l).
Proof.
  unfold find_near_solutions. intros H.
  apply (for_append_nodup_tagged _ (fun k => (k.1.1, k.1.2)) _ _ _ H).
  { apply list_prod_nodup; apply range_py_nodup. }
  intros [a b] zs Hz. rewrite near_body_unfold in Hz.
  destruct (n =? 0); [discriminate|].
  assert (Hc : forall c ws, near_candidate max_value n t a b c = Some ws ->
            (length ws <= 1)%nat /\
            forall s, In s ws -> near_a s = a /\ near_b s = b /\ near_c s = c).
  { intros c ws Hw. unfold near_candidate in Hw.
    destruct ((c <=? 0) || (max_value <? c)); [injection Hw as <-; simpl; split; [lia|tauto]|].
    destruct (fermat_difference a b c n); [|discriminate]. simpl in Hw.
    destruct (fermat_relative_error a b c n); [|discriminate]. simpl in Hw.
    destruct (Qle_bool _ t); injection Hw as <-; simpl; (split; [lia|]);
      intros s Hs; [destruct Hs as [<-|[]]; simpl; auto|contradiction]. }
  split.
  - apply (NoDup_map_factor _ near_c); [intros ? ? [=]; assumption|].
    apply (for_append_nodup near_c _ _ _ Hz).
    + constructor; [|constructor; [|constructor]].
      * rewrite list_elem_of_In. simpl. lia.
      * rewrite list_elem_of_In. simpl. tauto.
    + intros c ws Hw. destruct (Hc c ws Hw) as [Hl Hs]. split; [exact Hl|].
      intros s Hin. apply Hs, Hin.
  - intros s Hs. destruct (for_append_in _ _ _ _ Hz Hs) as (c & ws & _ & Hw & Hs').
    destruct (proj2 (Hc _ _ Hw) _ Hs') as (-> & -> & _). reflexivity.
Qed.

Lemma find_near_solutions_no_duplicate_triples_witness :
  exists l, find_near_solutions int_root 10 3 (1 # 10) = Some l /\
    NoDup (map (fun s => (near_a s, near_b s, near_c s)) l).
Proof.
  set (l := from_option id [] (find_near_solutions int_root 10 3 (1 # 10))).
  assert (H : find_near_solutions int_root 10 3 (1 # 10) = Some l)
    by (vm_compute; reflexivity).
  exists l. split; [exact H|].
  exact (find_near_solutions_no_duplicate_triples int_root 10 3 (1 # 10) l H).
Defined.

